(** * Shallow embedding of the LIO task loader (cmscontrib/loaders/lio.py)

    The development models the core of [LioTaskLoader]: the point-file
    parser [parse_point_file], the classification of the member names of
    the test archive, the bucketing of the members into tests, the
    extraction loop that numbers the tests and builds codenames, and the
    final per-group check of [get_task].

    Python strings are modelled as [list ascii] (the model covers ASCII
    text; Python's Unicode digits and whitespace beyond ASCII are not
    modelled).  Python exceptions are the constructors of [exn]; the
    distinct messages of [LioLoaderException] are the constructors of
    [lio_error]. *)

From Stdlib Require Import ZArith List Ascii String Bool Lia.
From Stdlib Require Import DecimalString Finite.
Import ListNotations.

(* ------------------------------------------------------------------ *)
(** ** Python values and exceptions *)

Definition pystr := list ascii.

(** String literals of the development. *)
Definition lit (x : string) : pystr := list_ascii_of_string x.

(** The messages with which [get_task] and [parse_point_file] raise
    [LioLoaderException]. *)
Inductive lio_error :=
| DuplicatedGroups                          (* "Duplicated groups in point file" *)
| MissingGroup                              (* "Missing group from point file" *)
| PointSum                                  (* "Points for all groups doesn't sum up to 100" *)
| DirectoryInArchive                        (* "Test zip archive contains a directory" *)
| UnsupportedFile                           (* "Unsupported file in test archive" *)
| IncompleteTest (group : Z) (sub : pystr)  (* "Input or output file not found for test ..." *)
| NoTestcases (group : Z).                  (* "No testcases for group ..." *)

Inductive exn :=
| LioLoaderException (e : lio_error)
| IndexError
| ValueError
| KeyError
| UnicodeDecodeError.

Inductive result (A : Type) :=
| Ok (a : A)
| Err (e : exn).
Arguments Ok {A} a.
Arguments Err {A} e.

Definition bind {A B} (r : result A) (f : A -> result B) : result B :=
  match r with
  | Ok a => f a
  | Err e => Err e
  end.

Notation "x <- r ;; k" := (bind r (fun x => k))
  (at level 61, r at next level, right associativity).

(* ------------------------------------------------------------------ *)
(** ** String primitives (str.isspace, str.strip, str.replace, str.split, int) *)

(** [str.isspace] on ASCII: \t \n \v \f \r, \x1c-\x1f and the space. *)
Definition is_space (c : ascii) : bool :=
  let n := nat_of_ascii c in
  ((9 <=? n) && (n <=? 13)) || ((28 <=? n) && (n <=? 32)).

Definition is_digit (c : ascii) : bool :=
  let n := nat_of_ascii c in (48 <=? n) && (n <=? 57).

Definition is_lower (c : ascii) : bool :=
  let n := nat_of_ascii c in (97 <=? n) && (n <=? 122).

Fixpoint lstrip (l : pystr) : pystr :=
  match l with
  | c :: l' => if is_space c then lstrip l' else l
  | [] => []
  end.

(** [str.strip()] *)
Definition strip (l : pystr) : pystr := rev (lstrip (rev (lstrip l))).

(** [line.replace("-", " ")] *)
Definition replace_dash (l : pystr) : pystr :=
  map (fun c => if (c =? "-")%char then " "%char else c) l.

(** [str.split()]: the maximal runs of non-whitespace characters; [cur]
    is the reversed token being read. *)
Fixpoint split_aux (l : pystr) (cur : pystr) : list pystr :=
  match l with
  | [] => match cur with [] => [] | _ => [rev cur] end
  | c :: l' =>
      if is_space c then
        match cur with
        | [] => split_aux l' []
        | _ => rev cur :: split_aux l' []
        end
      else split_aux l' (c :: cur)
  end.

Definition split_ws (l : pystr) : list pystr := split_aux l [].

Definition digit_val (c : ascii) : Z := Z.of_nat (nat_of_ascii c) - 48.

(** Digits of [int(x)], with single underscores allowed between digits. *)
Fixpoint int_body (acc : Z) (l : pystr) : option Z :=
  match l with
  | [] => Some acc
  | c :: l' =>
      if is_digit c then int_body (acc * 10 + digit_val c) l'
      else if (c =? "_")%char then
        match l' with
        | d :: l'' => if is_digit d then int_body (acc * 10 + digit_val d) l'' else None
        | [] => None
        end
      else None
  end.

(** [int(x)] for a string [x]: surrounding whitespace, an optional sign,
    then decimal digits; [None] is the [ValueError]. *)
Definition py_int (t : pystr) : option Z :=
  let t := strip t in
  let sb := match t with
            | c :: r => if (c =? "+")%char then (1%Z, r)
                        else if (c =? "-")%char then ((-1)%Z, r) else (1%Z, t)
            | [] => (1%Z, t)
            end in
  match snd sb with
  | d :: r =>
      if is_digit d then option_map (fun v => fst sb * v)%Z (int_body (digit_val d) r)
      else None
  | [] => None
  end.

(** [int(vars[i])]: [IndexError] when the token is missing, [ValueError]
    when it is not an integer. *)
Definition int_at (vars : list pystr) (i : nat) : result Z :=
  match nth_error vars i with
  | None => Err IndexError
  | Some t => match py_int t with
              | None => Err ValueError
              | Some v => Ok v
              end
  end.

(* ------------------------------------------------------------------ *)
(** ** The point-file parser ([LioTaskLoader.parse_point_file]) *)

(** [points_per_group], a dict from group to points, as an association
    list in insertion order. *)
Definition point_map := list (Z * Z).

Definition mem_group (g : Z) (d : point_map) : bool :=
  existsb (fun kv => Z.eqb (fst kv) g) d.

(** [for group in range(a, b+1): if group in points_per_group: raise ...;
    points_per_group[group] = points], from group [group] on, [n] steps. *)
Fixpoint insert_groups (n : nat) (group points : Z) (d : point_map) : result point_map :=
  match n with
  | O => Ok d
  | S n' =>
      if mem_group group d then Err (LioLoaderException DuplicatedGroups)
      else insert_groups n' (group + 1)%Z points (d ++ [(group, points)])
  end.

Definition insert_range (a b points : Z) (d : point_map) : result point_map :=
  insert_groups (Z.to_nat (b + 1 - a)) a points d.

(** The body of [for line in content:]. *)
Definition process_line (line : pystr) (d : point_map) : result point_map :=
  let vars := split_ws (replace_dash line) in
  a <- int_at vars 0 ;;
  b <- int_at vars 1 ;;
  points <- int_at vars 2 ;;
  insert_range a b points d.

Fixpoint process_lines (content : list pystr) (d : point_map) : result point_map :=
  match content with
  | [] => Ok d
  | line :: rest => d' <- process_line line d ;; process_lines rest d'
  end.

Definition sum_values (d : point_map) : Z := fold_right Z.add 0%Z (map snd d).

(** [parse_point_file]: [lines] are the lines of the file as [readlines]
    returns them. *)
Definition parse_point_file (lines : list pystr) : result point_map :=
  let content := map strip lines in
  d <- process_lines content [] ;;
  if forallb (fun g => mem_group (Z.of_nat g) d) (seq 0 (List.length d)) then
    if Z.eqb (sum_values d) 100 then Ok d
    else Err (LioLoaderException PointSum)
  else Err (LioLoaderException MissingGroup).

(* ------------------------------------------------------------------ *)
(** ** Dicts, keys and the formatting of integers *)

Fixpoint pystr_eqb (a b : pystr) : bool :=
  match a, b with
  | [], [] => true
  | c :: a', d :: b' => (c =? d)%char && pystr_eqb a' b'
  | _, _ => false
  end.

(** Python's [<] on strings: lexicographic on character codes. *)
Fixpoint pystr_ltb (a b : pystr) : bool :=
  match a, b with
  | [], [] => false
  | [], _ :: _ => true
  | _ :: _, [] => false
  | c :: a', d :: b' =>
      if Nat.ltb (nat_of_ascii c) (nat_of_ascii d) then true
      else if Nat.ltb (nat_of_ascii d) (nat_of_ascii c) then false
      else pystr_ltb a' b'
  end.

(** A Python dict as an association list in insertion order. *)
Section Dict.
  Context {K V : Type} (eqb : K -> K -> bool).

Fixpoint assoc_get (k : K) (m : list (K * V)) : option V :=
    match m with
    | [] => None
    | (k', v) :: m' => if eqb k' k then Some v else assoc_get k m'
    end.

  (** [m[k] = v]: an existing key keeps its place, a new key goes last. *)
Fixpoint assoc_set (k : K) (v : V) (m : list (K * V)) : list (K * V) :=
    match m with
    | [] => [(k, v)]
    | (k', v') :: m' => if eqb k' k then (k', v) :: m' else (k', v') :: assoc_set k v m'
    end.
End Dict.

(** [str(n)] *)
Definition str_Z (n : Z) : pystr := lit (NilEmpty.string_of_int (Z.to_int n)).

(** [f"{n:0{w}}"]: the sign, then the digits left-padded with zeros to a
    total width of at least [w]. *)
Definition zpad (w : nat) (n : Z) : pystr :=
  let sign := if (n <? 0)%Z then ["-"%char] else [] in
  let ds := str_Z (Z.abs n) in
  sign ++ repeat "0"%char (w - List.length sign - List.length ds) ++ ds.

(** [max(xs)] on a list of integers; [ValueError] on an empty one. *)
Definition py_max (xs : list Z) : result Z :=
  match xs with
  | [] => Err ValueError
  | x :: xs' => Ok (fold_left Z.max xs' x)
  end.

(** [lst[i] += 1] on a list of integers, negative indices counting from
    the end, [IndexError] out of range. *)
Definition py_index (len : nat) (i : Z) : option nat :=
  if (0 <=? i)%Z && (i <? Z.of_nat len)%Z then Some (Z.to_nat i)
  else if (- Z.of_nat len <=? i)%Z && (i <? 0)%Z then Some (Z.to_nat (Z.of_nat len + i))
  else None.

Fixpoint replace_nth {A} (i : nat) (x : A) (l : list A) : list A :=
  match l, i with
  | [], _ => []
  | _ :: l', O => x :: l'
  | y :: l', S i' => y :: replace_nth i' x l'
  end.

Definition incr_at (counts : list Z) (i : Z) : result (list Z) :=
  match py_index (List.length counts) i with
  | None => Err IndexError
  | Some j => Ok (replace_nth j (nth j counts 0 + 1)%Z counts)
  end.

(* ------------------------------------------------------------------ *)
(** ** Classification of the members of the test archive *)

Fixpoint span_while (p : ascii -> bool) (l : pystr) : pystr * pystr :=
  match l with
  | c :: l' => if p c then let (a, b) := span_while p l' in (c :: a, b) else ([], l)
  | [] => ([], [])
  end.

(** [re.match] of the source's [matcher] (a dot, [i] or [o], digits, lowercase letters,
    end of string) at the start of [l], returning
    the three groups.  The two runs are disjoint character classes and are
    followed by the end of the string or by a final newline (Python's [$]),
    so the greedy runs are the only way to match: no backtracking is
    needed. *)
Definition match_at (l : pystr) : option (ascii * pystr * pystr) :=
  match l with
  | dot :: d :: rest =>
      if (dot =? ".")%char && ((d =? "i")%char || (d =? "o")%char) then
        let (ds, rest2) := span_while is_digit rest in
        let (sub, rest3) := span_while is_lower rest2 in
        match ds with
        | [] => None
        | _ :: _ =>
            match rest3 with
            | [] => Some (d, ds, sub)
            | [nl] => if (nl =? "010")%char then Some (d, ds, sub) else None
            | _ => None
            end
        end
      else None
  | _ => None
  end.

(** [matcher.search(name)]: the leftmost position where the pattern
    matches. *)
Fixpoint search (l : pystr) : option (ascii * pystr * pystr) :=
  match match_at l with
  | Some m => Some m
  | None => match l with
            | [] => None
            | _ :: l' => search l'
            end
  end.

Definition has_separator (name : pystr) : bool :=
  existsb (fun c => (c =? "/")%char || (c =? "092")%char) name.

(** The per-member part of the loop over [zip.namelist()]:
    [(is_input, group, test_in_group)]. *)
Definition classify (name : pystr) : result (bool * Z * pystr) :=
  if has_separator name then Err (LioLoaderException DirectoryInArchive)
  else match search name with
       | None => Err (LioLoaderException UnsupportedFile)
       | Some (d, ds, sub) =>
           match py_int ds with
           | None => Err ValueError
           | Some g => Ok ((d =? "i")%char, g, sub)
           end
       end.

(* ------------------------------------------------------------------ *)
(** ** Bucketing ([test_files]) *)

(** [test_files[group][test_in_group]], a dict with the keys ['input']
    and ['output'].  The two-level dict is kept as one dict keyed by
    [(group, test_in_group)]: visiting [sorted(test_files.keys())] and,
    within a group, [sorted(test_files[group].keys())] is visiting these
    pairs in lexicographic order ([sort_keys]). *)
Record bucket := { b_input : option pystr; b_output : option pystr }.

Definition empty_bucket : bucket := {| b_input := None; b_output := None |}.

Definition key := (Z * pystr)%type.

Definition key_eqb (k1 k2 : key) : bool :=
  Z.eqb (fst k1) (fst k2) && pystr_eqb (snd k1) (snd k2).

Definition key_ltb (k1 k2 : key) : bool :=
  Z.ltb (fst k1) (fst k2) || (Z.eqb (fst k1) (fst k2) && pystr_ltb (snd k1) (snd k2)).

Fixpoint insert_key (k : key) (l : list key) : list key :=
  match l with
  | [] => [k]
  | k' :: l' => if key_ltb k k' then k :: k' :: l' else k' :: insert_key k l'
  end.

Definition sort_keys (l : list key) : list key := fold_right insert_key [] l.

(** [testcase['input' if is_input else 'output'] = test_filename] *)
Definition set_side (is_input : bool) (name : pystr) (b : bucket) : bucket :=
  if is_input then {| b_input := Some name; b_output := b_output b |}
  else {| b_input := b_input b; b_output := Some name |}.

Definition test_files_t := list (key * bucket).

Fixpoint collect_from (names : list pystr) (tf : test_files_t) : result test_files_t :=
  match names with
  | [] => Ok tf
  | name :: rest =>
      c <- classify name ;;
      let '(is_input, group, sub) := c in
      let b := match assoc_get key_eqb (group, sub) tf with
               | Some b => b
               | None => empty_bucket
               end in
      collect_from rest (assoc_set key_eqb (group, sub) (set_side is_input name b) tf)
  end.

(* ------------------------------------------------------------------ *)
(** ** Extraction of the tests and the task assembly ([get_task]) *)

(** [io.TextIOWrapper(f, encoding='ascii', newline=None).read()] followed
    by [.encode('ascii')]: a byte above 127 is a [UnicodeDecodeError];
    universal newlines turn "\r\n" and "\r" into "\n". *)
Fixpoint normalize_newlines (l : list Byte.byte) : list Byte.byte :=
  match l with
  | Byte.x0d :: Byte.x0a :: r => Byte.x0a :: normalize_newlines r
  | Byte.x0d :: r => Byte.x0a :: normalize_newlines r
  | c :: r => c :: normalize_newlines r
  | [] => []
  end.

Definition is_ascii (data : list Byte.byte) : bool :=
  forallb (fun b => Nat.ltb (Byte.to_nat b) 128) data.

Definition read_ascii (data : list Byte.byte) : result (list Byte.byte) :=
  if is_ascii data
  then Ok (normalize_newlines data)
  else Err UnicodeDecodeError.

(** The zip archive: its [namelist()] and the bytes of each member. *)
Record archive := {
  namelist : list pystr;
  member_data : pystr -> list Byte.byte
}.

(** A [Testcase(codename, public, input_digest, output_digest)]; the file
    cacher is content addressed, so a digest is modelled by the content
    that was stored. *)
Record testcase := {
  tc_codename : pystr;
  tc_public : bool;
  tc_input : list Byte.byte;
  tc_output : list Byte.byte
}.

Definition codename (width : nat) (group : Z) (sub : pystr) : pystr :=
  zpad width group ++ sub.

(** The loop [for group in sorted(...): for test_in_group in sorted(...):],
    over the keys [ks] in that order, threading [tests_per_group] and
    [args["testcases"]]. *)
Fixpoint extract_loop (width : nat) (public_groups : list Z)
    (data : pystr -> list Byte.byte) (tf : test_files_t) (ks : list key)
    (counts : list Z) (tcs : list (pystr * testcase))
    : result (list Z * list (pystr * testcase)) :=
  match ks with
  | [] => Ok (counts, tcs)
  | (group, sub) :: ks' =>
      counts' <- incr_at counts group ;;
      match assoc_get key_eqb (group, sub) tf with
      | None => Err KeyError
      | Some b =>
          match b_input b, b_output b with
          | Some i, Some o =>
              ic <- read_ascii (data i) ;;
              oc <- read_ascii (data o) ;;
              let c := codename width group sub in
              let tc := {| tc_codename := c;
                           tc_public := existsb (Z.eqb group) public_groups;
                           tc_input := ic; tc_output := oc |} in
              extract_loop width public_groups data tf ks' counts'
                (assoc_set pystr_eqb c tc tcs)
          | _, _ => Err (LioLoaderException (IncompleteTest group sub))
          end
      end
  end.

(** [for i in range(len(tests_per_group)): if tests_per_group[i] == 0: raise]. *)
Fixpoint check_groups_from (i : Z) (counts : list Z) : result unit :=
  match counts with
  | [] => Ok tt
  | c :: cs =>
      if Z.eqb c 0 then Err (LioLoaderException (NoTestcases i))
      else check_groups_from (i + 1)%Z cs
  end.

(** [[[points_per_group[i], f"{i:03}"] for i in range(len(points_per_group))]] *)
Fixpoint build_score_params (d : point_map) (is : list nat) : result (list (Z * pystr)) :=
  match is with
  | [] => Ok []
  | i :: is' =>
      p <- match assoc_get Z.eqb (Z.of_nat i) d with
           | Some p => Ok p
           | None => Err KeyError
           end ;;
      rest <- build_score_params d is' ;;
      Ok ((p, zpad 3 (Z.of_nat i)) :: rest)
  end.

Record dataset := {
  score_type_parameters : list (Z * pystr);
  testcases : list (pystr * testcase)
}.

Definition groups_of (tf : test_files_t) : list Z := map (fun kb => fst (fst kb)) tf.

(** The matching stage: collect the members into [test_files], then run
    the extraction loop from [tests_per_group = [0] * n]. *)
Definition match_tests (n : nat) (public_groups : list Z) (zip : archive)
    : result (list Z * list (pystr * testcase)) :=
  test_files <- collect_from (namelist zip) [] ;;
  mx <- py_max (groups_of test_files) ;;
  let width := List.length (str_Z mx) in
  extract_loop width public_groups (member_data zip) test_files
    (sort_keys (map fst test_files)) (repeat 0%Z n) [].

(** [get_task] from the point file on (the configuration entries, the
    statements and the checker before it are not modelled). *)
Definition get_task (point_lines : list pystr) (public_groups : list Z) (zip : archive)
    : result dataset :=
  points_per_group <- parse_point_file point_lines ;;
  stp <- build_score_params points_per_group (seq 0 (List.length points_per_group)) ;;
  r <- match_tests (List.length points_per_group) public_groups zip ;;
  _ <- check_groups_from 0 (fst r) ;;
  Ok {| score_type_parameters := stp; testcases := snd r |}.

(* ------------------------------------------------------------------ *)
(** ** Concrete inputs *)

Definition simple_zip (names : list string) : archive :=
  {| namelist := map lit names; member_data := fun _ => [Byte.x31; Byte.x0d; Byte.x0a] |}.

Definition points_30_70 : list pystr := [lit "0-1 30"; lit "2-2 70"].

Definition zip_012 : archive :=
  simple_zip ["t.o2"; "t.i0"; "t.o0"; "t.i1"; "t.o1"; "t.i2"]%string.

Definition points_15_70 : list pystr := [lit "0-1 15"; lit "2-2 70"].

Definition zip_01 : archive := simple_zip ["t.i0"; "t.o0"; "t.i1"; "t.o1"]%string.

(** Group [0] with two inputs, the first of them a non-ASCII byte, and
    an extra group [1]. *)
Definition zip_overwritten_non_ascii : archive :=
  {| namelist := map lit ["a.i0"; "b.i0"; "a.o0"; "a.i1"; "a.o1"]%string;
     member_data := fun n => if pystr_eqb n (lit "a.i0") then [Byte.xff]
                             else [Byte.x31; Byte.x0d; Byte.x0a] |}.

Definition points_0_10 : list pystr := [lit "0-9 5"; lit "10-10 50"].

(** Groups [0] to [10], group [3] under the sub-index [b]. *)
Definition zip_0_10 : archive :=
  simple_zip ["t.i0"; "t.o0"; "t.i1"; "t.o1"; "t.i2"; "t.o2"; "t.i3b"; "t.o3b";
              "t.i4"; "t.o4"; "t.i5"; "t.o5"; "t.i6"; "t.o6"; "t.i7"; "t.o7";
              "t.i8"; "t.o8"; "t.i9"; "t.o9"; "t.i10"; "t.o10"]%string.

(** The three integers the loop body reads from a line of [content]
    when none of [vars[0]], [vars[1]], [vars[2]] and their [int] raises. *)
Definition content_fields (c : pystr) : option (Z * Z * Z) :=
  let vars := split_ws (replace_dash c) in
  match int_at vars 0, int_at vars 1, int_at vars 2 with
  | Ok a, Ok b, Ok p => Some (a, b, p)
  | _, _, _ => None
  end.

(** The same for a line of the file, before [line.strip()]. *)
Definition line_fields (line : pystr) : option (Z * Z * Z) := content_fields (strip line).

(** The shape of a suffix the matcher accepts: the direction letter, the
    digits of the group, the lowercase sub-index label, then nothing or a
    single final newline. *)
Definition suffix_shape (d : ascii) (ds sub tl : pystr) : Prop :=
  (d = "i"%char \/ d = "o"%char) /\ ds <> [] /\ forallb is_digit ds = true /\
  forallb is_lower sub = true /\ (tl = [] \/ tl = ["010"%char]).

(** The decimal value of a string of digits. *)
Definition digits_value (ds : pystr) : Z :=
  fold_left (fun acc c => acc * 10 + digit_val c)%Z ds 0%Z.

(** The pattern as the specification writes it, [^.+] followed by the
    source's pattern: a non-empty base name of characters other than the
    newline comes before the dot. *)
Definition spec_pattern_matches (name : pystr) : bool :=
  existsb (fun p => forallb (fun c => negb (c =? "010")%char) (firstn p name) &&
                    match match_at (skipn p name) with Some _ => true | None => false end)
          (seq 1 (List.length name)).

(** The input or the output file of a bucket. *)
Definition side (is_input : bool) (b : bucket) : option pystr :=
  if is_input then b_input b else b_output b.

Definition opt_side (is_input : bool) (o : option bucket) : option pystr :=
  match o with Some b => side is_input b | None => None end.

(** The last member of [names] classified with direction [is_input] into
    the bucket [k], or [prev] when there is none. *)
Definition last_member (is_input : bool) (k : key) (names : list pystr)
    (prev : option pystr) : option pystr :=
  fold_left (fun acc n =>
               match classify n with
               | Ok (d, g, sub) => if Bool.eqb d is_input && key_eqb (g, sub) k then Some n else acc
               | Err _ => acc
               end) names prev.

(** The bucket [k] of [test_files] holds an input and an output member,
    both ASCII. *)
Definition complete_in (tf : test_files_t) (data : pystr -> list Byte.byte) (k : key) : Prop :=
  exists b i o, assoc_get key_eqb k tf = Some b /\ b_input b = Some i /\ b_output b = Some o /\
                is_ascii (data i) = true /\ is_ascii (data o) = true.

(* ================================================================== *)
(** * Properties *)

(* ------------------------------------------------------------------ *)
(** ** The point map *)

Lemma mem_group_In g d : mem_group g d = true <-> In g (map fst d).
Proof.
  unfold mem_group. rewrite existsb_exists. split.
  - intros [[k v] [Hin Heq]]. apply Z.eqb_eq in Heq. simpl in Heq.
    apply in_map_iff. exists (k, v). simpl. auto.
  - intros Hin. apply in_map_iff in Hin. destruct Hin as [[k v] [Hk Hin]].
    simpl in Hk. exists (k, v). split; [assumption|simpl; apply Z.eqb_eq; exact Hk].
Qed.

Lemma insert_groups_nodup n :
  forall g p d d', NoDup (map fst d) -> insert_groups n g p d = Ok d' ->
  NoDup (map fst d').
Proof.
  induction n as [|n IH]; simpl; intros g p d d' Hnd H.
  - injection H as <-. exact Hnd.
  - destruct (mem_group g d) eqn:Hm; [discriminate|].
    apply (IH (g + 1)%Z p (d ++ [(g, p)])); [|exact H].
    rewrite map_app. simpl. apply NoDup_app; [exact Hnd|constructor; [intros []|constructor]|].
    intros a Ha [<-|[]]. apply mem_group_In in Ha. congruence.
Qed.

Lemma process_line_inv line d d' :
  process_line line d = Ok d' -> exists a b p, insert_range a b p d = Ok d'.
Proof.
  unfold process_line.
  destruct (int_at _ 0) as [a|e]; simpl; [|discriminate].
  destruct (int_at _ 1) as [b|e]; simpl; [|discriminate].
  destruct (int_at _ 2) as [p|e]; simpl; [|discriminate].
  intros H. exists a, b, p. exact H.
Qed.

Lemma process_lines_nodup content :
  forall d d', NoDup (map fst d) -> process_lines content d = Ok d' ->
  NoDup (map fst d').
Proof.
  induction content as [|line rest IH]; simpl; intros d d' Hnd H.
  - injection H as <-. exact Hnd.
  - destruct (process_line line d) as [d1|e] eqn:Hl; simpl in H; [|discriminate].
    apply (IH d1); [|exact H].
    destruct (process_line_inv _ _ _ Hl) as (a & b & p & Hr).
    exact (insert_groups_nodup _ _ _ _ _ Hnd Hr).
Qed.

(** C1: whenever [parse_point_file] returns a map, its keys are exactly
    [0 .. N-1] for [N] its size (no duplicates, no gaps), and its values
    sum to 100. *)
Theorem parse_point_file_domain_sum lines m :
  parse_point_file lines = Ok m ->
  (forall g, In g (map fst m) <-> (0 <= g < Z.of_nat (List.length m))%Z) /\
  NoDup (map fst m) /\ sum_values m = 100%Z.
Proof.
  unfold parse_point_file.
  destruct (process_lines (map strip lines) []) as [d|e] eqn:Hp; simpl; [|discriminate].
  destruct (forallb _ _) eqn:Hall; [|discriminate].
  destruct (Z.eqb (sum_values d) 100) eqn:Hs; [|discriminate].
  intros H. injection H as <-.
  assert (Hnd : NoDup (map fst d)) by (apply (process_lines_nodup _ [] _ (NoDup_nil _) Hp)).
  rewrite forallb_forall in Hall.
  set (dom := map Z.of_nat (seq 0 (List.length d))).
  assert (Hdom : forall g, In g dom <-> (0 <= g < Z.of_nat (List.length d))%Z).
  { intros g. unfold dom. rewrite in_map_iff. split.
    - intros [i [<- Hi]]. apply in_seq in Hi. lia.
    - intros Hg. exists (Z.to_nat g). rewrite in_seq. split; lia. }
  assert (Hincl : incl dom (map fst d)).
  { intros g Hg. unfold dom in Hg. apply in_map_iff in Hg. destruct Hg as [i [<- Hi]].
    apply mem_group_In. apply Hall. exact Hi. }
  assert (Hnd_dom : NoDup dom).
  { unfold dom. apply Injective_map_NoDup; [intros x y; lia|apply seq_NoDup]. }
  assert (Hback : incl (map fst d) dom).
  { apply NoDup_length_incl; [exact Hnd_dom| |exact Hincl].
    unfold dom. rewrite !length_map, length_seq. lia. }
  split; [|split; [exact Hnd|apply Z.eqb_eq; exact Hs]].
  intros g. rewrite <- Hdom. split; [apply Hback|apply Hincl].
Qed.

Lemma parse_point_file_domain_sum_witness :
  parse_point_file [lit "0-1 30"; lit "2-2 40"] = Ok [(0,30); (1,30); (2,40)]%Z /\
  ((forall g, In g (map fst [(0,30); (1,30); (2,40)]%Z) <-> (0 <= g < 3)%Z) /\
   NoDup (map fst [(0,30); (1,30); (2,40)]%Z) /\ sum_values [(0,30); (1,30); (2,40)]%Z = 100%Z).
Proof.
  split; [reflexivity|].
  apply (parse_point_file_domain_sum [lit "0-1 30"; lit "2-2 40"]). reflexivity.
Defined.

Lemma insert_groups_err n : forall g p d e,
  insert_groups n g p d = Err e -> e = LioLoaderException DuplicatedGroups.
Proof.
  induction n as [|n IH]; simpl; intros g p d e H; [discriminate|].
  destruct (mem_group g d); [congruence|exact (IH _ _ _ _ H)].
Qed.

Lemma insert_groups_keys n : forall g p d d',
  insert_groups n g p d = Ok d' ->
  (forall x, In x (map fst d) -> In x (map fst d')) /\
  (forall x, (g <= x < g + Z.of_nat n)%Z -> In x (map fst d')).
Proof.
  induction n as [|n IH]; simpl; intros g p d d' H.
  - injection H as <-. split; [auto|intros; lia].
  - destruct (mem_group g d); [discriminate|].
    destruct (IH _ _ _ _ H) as [H1 H2]. split.
    + intros x Hx. apply H1. rewrite map_app. apply in_or_app. left. exact Hx.
    + intros x Hx. destruct (Z.eq_dec x g) as [->|Hne].
      * apply H1. rewrite map_app. apply in_or_app. right. left. reflexivity.
      * apply H2. lia.
Qed.

Lemma insert_groups_dup n : forall g p d x,
  In x (map fst d) -> (g <= x < g + Z.of_nat n)%Z ->
  insert_groups n g p d = Err (LioLoaderException DuplicatedGroups).
Proof.
  induction n as [|n IH]; simpl; intros g p d x Hx Hr; [lia|].
  destruct (mem_group g d) eqn:Hm; [reflexivity|].
  destruct (Z.eq_dec x g) as [->|Hne].
  - apply mem_group_In in Hx. congruence.
  - apply (IH _ _ _ x); [|lia].
    rewrite map_app. apply in_or_app. left. exact Hx.
Qed.

Lemma content_fields_process c a b p d :
  content_fields c = Some (a, b, p) -> process_line c d = insert_range a b p d.
Proof.
  unfold content_fields, process_line.
  destruct (int_at _ 0) as [a'|]; [|discriminate].
  destruct (int_at _ 1) as [b'|]; [|discriminate].
  destruct (int_at _ 2) as [p'|]; [|discriminate].
  intros H. injection H as -> -> ->. reflexivity.
Qed.

(** One step of the loop on a readable line: either the duplicate error,
    or a map that keeps the old groups and holds the whole range. *)
Lemma process_line_cases c a b p d :
  content_fields c = Some (a, b, p) ->
  process_line c d = Err (LioLoaderException DuplicatedGroups) \/
  exists d', process_line c d = Ok d' /\
    (forall x, In x (map fst d) -> In x (map fst d')) /\
    (forall x, (a <= x <= b)%Z -> In x (map fst d')).
Proof.
  intros Hf. rewrite (content_fields_process _ _ _ _ _ Hf). unfold insert_range.
  destruct (insert_groups _ a p d) as [d'|e] eqn:Hi.
  - right. exists d'. destruct (insert_groups_keys _ _ _ _ _ Hi) as [H1 H2].
    split; [reflexivity|split; [exact H1|]]. intros x Hx. apply H2. lia.
  - left. rewrite (insert_groups_err _ _ _ _ _ Hi). reflexivity.
Qed.

Lemma process_lines_dup_later content : forall d j lj a b p x,
  nth_error content j = Some lj ->
  (forall k l, (k < j)%nat -> nth_error content k = Some l -> content_fields l <> None) ->
  content_fields lj = Some (a, b, p) -> (a <= x <= b)%Z -> In x (map fst d) ->
  process_lines content d = Err (LioLoaderException DuplicatedGroups).
Proof.
  induction content as [|c rest IH]; intros d j lj a b p x Hj Hwf Hf Hx Hin.
  - destruct j; discriminate.
  - destruct j as [|j]; simpl in Hj.
    + injection Hj as ->. simpl. rewrite (content_fields_process _ _ _ _ _ Hf).
      unfold insert_range. rewrite (insert_groups_dup _ _ _ _ x Hin); [reflexivity|lia].
    + simpl. destruct (content_fields c) as [[[a0 b0] p0]|] eqn:Hc;
        [|exfalso; exact (Hwf 0%nat c ltac:(lia) eq_refl Hc)].
      destruct (process_line_cases _ _ _ _ d Hc) as [->|[d' [-> [H1 _]]]]; [reflexivity|].
      simpl. apply (IH d' j lj a b p x Hj); auto.
      intros k l Hk Hl. apply (Hwf (S k) l); [lia|exact Hl].
Qed.

Lemma process_lines_dup content : forall d i j li lj ai bi pi aj bj pj x,
  (i < j)%nat -> nth_error content i = Some li -> nth_error content j = Some lj ->
  (forall k l, (k < j)%nat -> nth_error content k = Some l -> content_fields l <> None) ->
  content_fields li = Some (ai, bi, pi) -> content_fields lj = Some (aj, bj, pj) ->
  (ai <= x <= bi)%Z -> (aj <= x <= bj)%Z ->
  process_lines content d = Err (LioLoaderException DuplicatedGroups).
Proof.
  induction content as [|c rest IH];
    intros d i j li lj ai bi pi aj bj pj x Hij Hi Hj Hwf Hfi Hfj Hxi Hxj.
  - destruct i; discriminate.
  - destruct j as [|j]; [lia|]. simpl in Hj.
    destruct i as [|i]; simpl in Hi.
    + injection Hi as ->. simpl.
      destruct (process_line_cases _ _ _ _ d Hfi) as [->|[d' [-> [_ H2]]]]; [reflexivity|].
      simpl. apply (process_lines_dup_later rest d' j lj aj bj pj x Hj); auto.
      intros k l Hk Hl. apply (Hwf (S k) l); [lia|exact Hl].
    + simpl. destruct (content_fields c) as [[[a0 b0] p0]|] eqn:Hc;
        [|exfalso; exact (Hwf 0%nat c ltac:(lia) eq_refl Hc)].
      destruct (process_line_cases _ _ _ _ d Hc) as [->|[d' [-> _]]]; [reflexivity|].
      simpl. apply (IH d' i j li lj ai bi pi aj bj pj x); auto; [lia|].
      intros k l Hk Hl. apply (Hwf (S k) l); [lia|exact Hl].
Qed.

(** C7: when group [x] lies in the ranges of two lines [i < j] of the
    point file and every line up to the later one is read without error,
    [parse_point_file] fails with the duplicate-group error.  Which of
    the two lines comes first plays no part: [i] and [j] are any two
    positions. *)
Theorem parse_point_file_duplicate lines i j li lj ai bi pi aj bj pj x :
  (i < j)%nat -> nth_error lines i = Some li -> nth_error lines j = Some lj ->
  (forall k l, (k < j)%nat -> nth_error lines k = Some l -> line_fields l <> None) ->
  line_fields li = Some (ai, bi, pi) -> line_fields lj = Some (aj, bj, pj) ->
  (ai <= x <= bi)%Z -> (aj <= x <= bj)%Z ->
  parse_point_file lines = Err (LioLoaderException DuplicatedGroups).
Proof.
  intros Hij Hi Hj Hwf Hfi Hfj Hxi Hxj. unfold parse_point_file.
  rewrite (process_lines_dup (map strip lines) [] i j (strip li) (strip lj)
             ai bi pi aj bj pj x); auto.
  - rewrite nth_error_map, Hi. reflexivity.
  - rewrite nth_error_map, Hj. reflexivity.
  - intros k l Hk Hl. rewrite nth_error_map in Hl.
    destruct (nth_error lines k) as [l0|] eqn:Hl0; [|discriminate].
    injection Hl as <-. exact (Hwf k l0 Hk Hl0).
Qed.

Lemma parse_point_file_duplicate_witness :
  parse_point_file [lit "2-3 50"; lit "0-1 25"; lit "1-1 25"]
  = Err (LioLoaderException DuplicatedGroups).
Proof.
  apply (parse_point_file_duplicate _ 1 2 (lit "0-1 25") (lit "1-1 25") 0 1 25 1 1 25 1);
    try reflexivity; try lia.
  intros k l Hk Hl. destruct k as [|[|k]]; [| |lia]; simpl in Hl; injection Hl as <-;
    discriminate.
Defined.

(* ------------------------------------------------------------------ *)
(** ** Blank lines and single-integer ranges *)

Lemma process_lines_app l1 l2 d :
  process_lines (l1 ++ l2) d = bind (process_lines l1 d) (process_lines l2).
Proof.
  revert d. induction l1 as [|c l1 IH]; intros d; simpl; [reflexivity|].
  destruct (process_line c d); simpl; [apply IH|reflexivity].
Qed.

Lemma lstrip_blank l : forallb is_space l = true -> lstrip l = [].
Proof.
  induction l as [|c l IH]; simpl; [reflexivity|].
  intros H. apply andb_true_iff in H. destruct H as [Hc Hl]. rewrite Hc. exact (IH Hl).
Qed.

Lemma strip_blank l : forallb is_space l = true -> strip l = [].
Proof. intros H. unfold strip. rewrite (lstrip_blank l H). reflexivity. Qed.

(** C10: blank lines are not skipped.  Once the lines before it are
    processed without error, an empty or whitespace-only line makes
    [parse_point_file] fail with [IndexError] ([vars[0]] of an empty
    token list), not with a [LioLoaderException]. *)
Theorem parse_point_file_blank_line pre line rest d :
  process_lines (map strip pre) [] = Ok d ->
  forallb is_space line = true ->
  parse_point_file (pre ++ line :: rest) = Err IndexError.
Proof.
  intros Hpre Hb. unfold parse_point_file.
  rewrite map_app, process_lines_app, Hpre. simpl.
  rewrite (strip_blank line Hb). reflexivity.
Qed.

Lemma parse_point_file_blank_line_witness :
  parse_point_file [lit "0-1 50"; lit " "; lit "2-2 0"] = Err IndexError.
Proof.
  apply (parse_point_file_blank_line [lit "0-1 50"] (lit " ") [lit "2-2 0"]
           [(0, 50); (1, 50)]%Z); reflexivity.
Defined.

(** C3 (as the code has it): a line whose range is a single integer, like
    [5 10], gives only two tokens; the loop reads [vars[2]] and fails with
    [IndexError].  A single group is written as the range [5-5 10]. *)
Theorem process_line_single_integer_range line d t1 t2 :
  split_ws (replace_dash line) = [t1; t2] ->
  py_int t1 <> None -> py_int t2 <> None ->
  process_line line d = Err IndexError /\
  process_line (lit "5-5 10") d = insert_range 5 5 10 d.
Proof.
  intros Hs H1 H2. split; [|reflexivity].
  unfold process_line, int_at. rewrite Hs. simpl.
  destruct (py_int t1); [|congruence]. destruct (py_int t2); [|congruence].
  reflexivity.
Qed.

Lemma process_line_single_integer_range_witness :
  process_line (lit "5 10") [] = Err IndexError /\
  process_line (lit "5-5 10") [] = Ok [(5, 10)]%Z.
Proof.
  destruct (process_line_single_integer_range (lit "5 10") [] (lit "5") (lit "10"))
    as [H1 H2]; try reflexivity; try discriminate.
  split; [exact H1|rewrite H2; reflexivity].
Defined.

(** C3 as stated fails: the file below would give groups [0..6] with
    [10] points for group [5] and a total of [100] if [5 10] were read as a
    single group; the code fails with [IndexError] instead. *)
Lemma single_integer_range_rejected :
  parse_point_file [lit "0-4 0"; lit "5 10"; lit "6-6 90"] = Err IndexError /\
  parse_point_file [lit "0-4 0"; lit "5-5 10"; lit "6-6 90"]
  = Ok [(0,0); (1,0); (2,0); (3,0); (4,0); (5,10); (6,90)]%Z.
Proof. split; reflexivity. Qed.

(* ------------------------------------------------------------------ *)
(** ** The member-name matcher *)

Lemma span_while_spec p l :
  let (a, b) := span_while p l in
  l = a ++ b /\ forallb p a = true /\
  match b with [] => True | c :: _ => p c = false end.
Proof.
  induction l as [|c l IH]; simpl; [auto|].
  destruct (p c) eqn:Hc.
  - destruct (span_while p l) as [a b]. destruct IH as [-> [Ha Hb]].
    simpl. rewrite Hc, Ha. auto.
  - simpl. auto.
Qed.

Lemma span_while_app p a r :
  forallb p a = true -> match r with [] => True | c :: _ => p c = false end ->
  span_while p (a ++ r) = (a, r).
Proof.
  intros Ha Hr. induction a as [|c a IH]; simpl.
  - destruct r as [|c r]; simpl; [reflexivity|rewrite Hr; reflexivity].
  - simpl in Ha. apply andb_true_iff in Ha. destruct Ha as [Hc Ha].
    rewrite Hc, (IH Ha). reflexivity.
Qed.

Lemma digit_not_space c : is_digit c = true -> is_space c = false.
Proof.
  unfold is_digit, is_space. intros H. apply andb_true_iff in H. destruct H as [H1 H2].
  apply Nat.leb_le in H1. apply Nat.leb_le in H2.
  apply orb_false_iff. split; apply andb_false_iff; right; apply Nat.leb_gt; lia.
Qed.

Lemma digit_not_lower c : is_digit c = true -> is_lower c = false.
Proof.
  unfold is_digit, is_lower. intros H. apply andb_true_iff in H. destruct H as [H1 H2].
  apply Nat.leb_le in H2. apply andb_false_iff. left. apply Nat.leb_gt. lia.
Qed.

Lemma digit_not_dot c : is_digit c = true -> c <> "."%char.
Proof. intros H ->. discriminate. Qed.

Lemma lower_not_dot c : is_lower c = true -> c <> "."%char.
Proof. intros H ->. discriminate. Qed.

Lemma match_at_shape l d ds sub :
  match_at l = Some (d, ds, sub) ->
  exists tl, l = "."%char :: d :: ds ++ sub ++ tl /\ suffix_shape d ds sub tl.
Proof.
  unfold match_at. destruct l as [|dot [|d' rest]]; try discriminate.
  destruct ((dot =? ".")%char && ((d' =? "i")%char || (d' =? "o")%char)) eqn:Hh;
    [|discriminate].
  apply andb_true_iff in Hh. destruct Hh as [Hdot Hio].
  apply Ascii.eqb_eq in Hdot. subst dot.
  pose proof (span_while_spec is_digit rest) as S1.
  destruct (span_while is_digit rest) as [ds' rest2].
  pose proof (span_while_spec is_lower rest2) as S2.
  destruct (span_while is_lower rest2) as [sub' rest3].
  destruct S1 as [E1 [D1 _]]. destruct S2 as [E2 [D2 _]]. subst rest rest2.
  assert (Hd : d' = "i"%char \/ d' = "o"%char).
  { apply orb_true_iff in Hio. destruct Hio as [H|H]; apply Ascii.eqb_eq in H; auto. }
  destruct ds' as [|c0 ds0]; [discriminate|].
  intros H. destruct rest3 as [|nl [|x y]].
  - injection H as <- <- <-. exists [].
    split; [reflexivity|repeat split; auto; discriminate].
  - destruct (nl =? "010")%char eqn:Hn; [|discriminate].
    apply Ascii.eqb_eq in Hn. subst nl.
    injection H as <- <- <-. exists ["010"%char].
    split; [reflexivity|repeat split; auto; discriminate].
  - discriminate.
Qed.

Lemma match_at_of_shape d ds sub tl :
  suffix_shape d ds sub tl ->
  match_at ("."%char :: d :: ds ++ sub ++ tl) = Some (d, ds, sub).
Proof.
  intros (Hd & Hne & Hds & Hsub & Htl). unfold match_at.
  assert (Hio : ((d =? "i")%char || (d =? "o")%char) = true)
    by (destruct Hd as [-> | ->]; reflexivity).
  rewrite Hio. simpl (("." =? ".")%char && true).
  rewrite (span_while_app is_digit ds (sub ++ tl) Hds).
  2:{ destruct sub as [|c sub].
      - destruct Htl as [-> | ->]; simpl; [exact I|reflexivity].
      - simpl. simpl in Hsub. apply andb_true_iff in Hsub. destruct Hsub as [Hc _].
        destruct (is_digit c) eqn:Hdc; [|reflexivity].
        rewrite (digit_not_lower c Hdc) in Hc. discriminate. }
  rewrite (span_while_app is_lower sub tl Hsub).
  2:{ destruct Htl as [-> | ->]; simpl; [exact I|reflexivity]. }
  destruct ds as [|c ds]; [congruence|].
  destruct Htl as [-> | ->]; reflexivity.
Qed.

Lemma shape_no_dot d ds sub tl :
  suffix_shape d ds sub tl -> ~ In "."%char (d :: ds ++ sub ++ tl).
Proof.
  intros (Hd & _ & Hds & Hsub & Htl) Hin. simpl in Hin.
  destruct Hin as [Heq|Hin]; [destruct Hd as [-> | ->]; discriminate|].
  apply in_app_or in Hin. destruct Hin as [Hin|Hin].
  - rewrite forallb_forall in Hds. exact (digit_not_dot _ (Hds _ Hin) eq_refl).
  - apply in_app_or in Hin. destruct Hin as [Hin|Hin].
    + rewrite forallb_forall in Hsub. exact (lower_not_dot _ (Hsub _ Hin) eq_refl).
    + destruct Htl as [-> | ->]; simpl in Hin; [exact Hin|].
      destruct Hin as [Heq|[]]. discriminate.
Qed.

Lemma search_eq l :
  search l = match match_at l with
             | Some m => Some m
             | None => match l with [] => None | _ :: l' => search l' end
             end.
Proof. destruct l; reflexivity. Qed.

Lemma search_app base S r : match_at S = Some r -> search (base ++ S) = Some r.
Proof.
  intros HS. induction base as [|c base IH]; simpl app.
  - rewrite search_eq, HS. reflexivity.
  - rewrite search_eq.
    destruct (match_at (c :: base ++ S)) as [[[d' ds'] sub']|] eqn:Hm; [|exact IH].
    exfalso. destruct r as [[d ds] sub].
    destruct (match_at_shape _ _ _ _ Hm) as [tl' [E' Sh']].
    destruct (match_at_shape _ _ _ _ HS) as [tl [E Sh]].
    injection E' as _ E'. apply (shape_no_dot _ _ _ _ Sh').
    rewrite <- E'. apply in_or_app. right. rewrite E. left. reflexivity.
Qed.

Lemma search_some l r : search l = Some r -> exists base S, l = base ++ S /\ match_at S = Some r.
Proof.
  induction l as [|c l IH]; intros H; rewrite search_eq in H.
  - discriminate.
  - destruct (match_at (c :: l)) as [m|] eqn:Hm.
    + injection H as <-. exists [], (c :: l). auto.
    + destruct (IH H) as [base [S [-> HS]]]. exists (c :: base), S. auto.
Qed.

Lemma lstrip_digits l : forallb is_digit l = true -> lstrip l = l.
Proof.
  destruct l as [|c l]; simpl; [reflexivity|].
  intros H. apply andb_true_iff in H. destruct H as [Hc _].
  rewrite (digit_not_space c Hc). reflexivity.
Qed.

Lemma forallb_rev {A} (p : A -> bool) l : forallb p l = true -> forallb p (rev l) = true.
Proof.
  rewrite !forallb_forall. intros H x Hx. apply H. apply in_rev. exact Hx.
Qed.

Lemma int_body_digits r : forall acc,
  forallb is_digit r = true ->
  int_body acc r = Some (fold_left (fun acc c => acc * 10 + digit_val c)%Z r acc).
Proof.
  induction r as [|c r IH]; intros acc H; simpl; [reflexivity|].
  simpl in H. apply andb_true_iff in H. destruct H as [Hc Hr].
  rewrite Hc. apply IH. exact Hr.
Qed.

Lemma py_int_digits ds :
  ds <> [] -> forallb is_digit ds = true -> py_int ds = Some (digits_value ds).
Proof.
  intros Hne Hds. unfold py_int, strip.
  rewrite (lstrip_digits ds Hds), (lstrip_digits (rev ds) (forallb_rev _ _ Hds)), rev_involutive.
  destruct ds as [|c r]; [congruence|].
  simpl in Hds. apply andb_true_iff in Hds. destruct Hds as [Hc Hr].
  destruct (Ascii.eqb_spec c "+"%char) as [->|_]; [discriminate|].
  destruct (Ascii.eqb_spec c "-"%char) as [->|_]; [discriminate|].
  simpl. rewrite Hc, (int_body_digits r _ Hr). simpl.
  change (digits_value (c :: r))
    with (fold_left (fun acc c => acc * 10 + digit_val c)%Z r (digit_val c)).
  destruct (fold_left _ r (digit_val c)); reflexivity.
Qed.

(** C4 (as the code has it): for a member name without a path separator,
    [classify] accepts exactly the names that end with a dot, [i] or [o],
    one or more digits and zero or more lowercase letters, possibly
    followed by one final newline (the [$] of Python); the text before the
    dot may be empty.  An accepted name is classified by the direction
    letter, the value of the digits and the letters; every other name is
    the [UnsupportedFile] error. *)
Theorem classify_spec name :
  has_separator name = false ->
  (forall base d ds sub tl,
     name = base ++ "."%char :: d :: ds ++ sub ++ tl -> suffix_shape d ds sub tl ->
     classify name = Ok ((d =? "i")%char, digits_value ds, sub)) /\
  (classify name = Err (LioLoaderException UnsupportedFile) <->
   ~ exists base d ds sub tl,
       name = base ++ "."%char :: d :: ds ++ sub ++ tl /\ suffix_shape d ds sub tl).
Proof.
  intros Hsep.
  assert (Hok : forall base d ds sub tl,
            name = base ++ "."%char :: d :: ds ++ sub ++ tl -> suffix_shape d ds sub tl ->
            classify name = Ok ((d =? "i")%char, digits_value ds, sub)).
  { intros base d ds sub tl -> Sh. unfold classify. rewrite Hsep.
    rewrite (search_app base _ _ (match_at_of_shape _ _ _ _ Sh)).
    destruct Sh as (_ & Hne & Hds & _).
    rewrite (py_int_digits ds Hne Hds). reflexivity. }
  split; [exact Hok|split].
  - intros Hu (base & d & ds & sub & tl & E & Sh).
    rewrite (Hok base d ds sub tl E Sh) in Hu. discriminate.
  - intros Hno. unfold classify. rewrite Hsep.
    destruct (search name) as [[[d ds] sub]|] eqn:Hs; [|reflexivity].
    exfalso. apply Hno.
    destruct (search_some _ _ Hs) as (base & S & -> & HS).
    destruct (match_at_shape _ _ _ _ HS) as (tl & -> & Sh).
    exists base, d, ds, sub, tl. auto.
Qed.

Lemma classify_spec_witness :
  classify (lit ".i01") = Ok (true, 1%Z, []) /\
  classify (lit "a.b") = Err (LioLoaderException UnsupportedFile).
Proof.
  split.
  - destruct (classify_spec (lit ".i01") eq_refl) as [H _].
    apply (H [] "i"%char (lit "01") [] []); [reflexivity|].
    repeat split; auto; discriminate.
  - reflexivity.
Defined.

(** C4 as stated fails: the name [.i01] has an empty base name, so it does
    not match the pattern with [^.+], yet the loader accepts it as the
    input of group 1. *)
Lemma classify_empty_base_accepted :
  spec_pattern_matches (lit ".i01") = false /\
  classify (lit ".i01") = Ok (true, 1%Z, []).
Proof. split; reflexivity. Qed.

(* ------------------------------------------------------------------ *)
(** ** Dicts *)

Lemma pystr_eqb_eq a b : pystr_eqb a b = true <-> a = b.
Proof.
  revert b. induction a as [|c a IH]; intros [|d b]; simpl; split; try congruence.
  - intros H. apply andb_true_iff in H. destruct H as [H1 H2].
    apply Ascii.eqb_eq in H1. apply IH in H2. congruence.
  - intros H. injection H as -> ->. apply andb_true_iff.
    split; [apply Ascii.eqb_refl|apply IH; reflexivity].
Qed.

Lemma key_eqb_eq k1 k2 : key_eqb k1 k2 = true <-> k1 = k2.
Proof.
  destruct k1 as [g1 s1], k2 as [g2 s2]. unfold key_eqb. simpl.
  rewrite andb_true_iff, Z.eqb_eq, pystr_eqb_eq. split.
  - intros [-> ->]. reflexivity.
  - intros H. injection H as -> ->. auto.
Qed.

Section DictLemmas.
  Context {K V : Type} (eqb : K -> K -> bool).
  Hypothesis eqb_spec : forall a b, eqb a b = true <-> a = b.

Lemma eqb_false_neq a b : eqb a b = false -> a <> b.
  Proof. intros H ->. assert (eqb b b = true) by (apply eqb_spec; reflexivity). congruence. Qed.

Lemma assoc_get_set k k' (v : V) m :
    assoc_get eqb k' (assoc_set eqb k v m) =
    if eqb k k' then Some v else assoc_get eqb k' m.
  Proof.
    induction m as [|[k0 v0] m IH]; simpl; [destruct (eqb k k'); reflexivity|].
    destruct (eqb k0 k) eqn:H0; simpl.
    - apply eqb_spec in H0. subst k0. destruct (eqb k k'); reflexivity.
    - destruct (eqb k0 k') eqn:H1; rewrite ?IH.
      + apply eqb_spec in H1. subst k'.
        destruct (eqb k k0) eqn:H2; [|reflexivity].
        apply eqb_spec in H2. subst. rewrite (proj2 (eqb_spec k0 k0) eq_refl) in H0. discriminate.
      + reflexivity.
  Qed.

Lemma assoc_get_In k (m : list (K * V)) : assoc_get eqb k m <> None <-> In k (map fst m).
  Proof.
    induction m as [|[k0 v0] m IH]; simpl; [tauto|].
    destruct (eqb k0 k) eqn:H.
    - apply eqb_spec in H. split; [auto|discriminate].
    - rewrite IH. apply eqb_false_neq in H. tauto.
  Qed.
End DictLemmas.

(* ------------------------------------------------------------------ *)
(** ** Bucketing *)

Lemma side_set_side d d' n b :
  side d' (set_side d n b) = if Bool.eqb d d' then Some n else side d' b.
Proof. destruct d, d'; reflexivity. Qed.

Lemma last_member_cons d k n names prev :
  last_member d k (n :: names) prev =
  last_member d k names
    (match classify n with
     | Ok (d0, g, sub) => if Bool.eqb d0 d && key_eqb (g, sub) k then Some n else prev
     | Err _ => prev
     end).
Proof. reflexivity. Qed.

Lemma collect_from_ok names : forall tf0,
  (forall n, In n names -> exists c, classify n = Ok c) ->
  exists tf, collect_from names tf0 = Ok tf.
Proof.
  induction names as [|n names IH]; intros tf0 H; simpl; [eauto|].
  destruct (H n (or_introl eq_refl)) as [[[d g] sub] Hc]. rewrite Hc. simpl.
  apply IH. intros n' Hn'. apply H. right. exact Hn'.
Qed.

Lemma collect_from_side names : forall tf0 tf d k,
  collect_from names tf0 = Ok tf ->
  opt_side d (assoc_get key_eqb k tf) = last_member d k names (opt_side d (assoc_get key_eqb k tf0)).
Proof.
  induction names as [|n names IH]; intros tf0 tf d k H; simpl in H.
  - injection H as <-. reflexivity.
  - destruct (classify n) as [[[d0 g] sub]|e] eqn:Hc; simpl in H; [|discriminate].
    rewrite (IH _ _ d k H), last_member_cons, Hc.
    f_equal. rewrite (assoc_get_set key_eqb key_eqb_eq).
    destruct (key_eqb (g, sub) k) eqn:Hk; rewrite ?andb_true_r, ?andb_false_r; [|reflexivity].
    apply key_eqb_eq in Hk. subst k. simpl. rewrite side_set_side.
    destruct (Bool.eqb d0 d); [reflexivity|].
    destruct (assoc_get key_eqb (g, sub) tf0); [reflexivity|destruct d; reflexivity].
Qed.

Lemma collect_from_keys names : forall tf0 tf k,
  collect_from names tf0 = Ok tf ->
  (assoc_get key_eqb k tf <> None <->
   assoc_get key_eqb k tf0 <> None \/
   exists n d, In n names /\ classify n = Ok (d, fst k, snd k)).
Proof.
  induction names as [|n names IH]; intros tf0 tf k H; simpl in H.
  - injection H as <-. split; [tauto|]. intros [H|(n & d & [] & _)]. exact H.
  - destruct (classify n) as [[[d0 g] sub]|e] eqn:Hc; simpl in H; [|discriminate].
    rewrite (IH _ _ k H). rewrite (assoc_get_set key_eqb key_eqb_eq).
    destruct (key_eqb (g, sub) k) eqn:Hk.
    + apply key_eqb_eq in Hk. subst k. simpl. split.
      * intros _. right. exists n, d0. auto.
      * intros _. left. discriminate.
    + split.
      * intros [H1|(n' & d' & Hin & Hc')]; [left; exact H1|].
        right. exists n', d'. simpl. auto.
      * intros [H1|(n' & d' & [<-|Hin] & Hc')]; [left; exact H1| |right; eauto].
        rewrite Hc in Hc'. injection Hc' as _ Hg Hs.
        destruct k as [g' sub']. simpl in Hg, Hs. subst.
        rewrite (proj2 (key_eqb_eq _ _) eq_refl) in Hk. discriminate.
Qed.

Lemma last_member_stays d k names : forall x, last_member d k names (Some x) <> None.
Proof.
  induction names as [|n names IH]; intros x; [discriminate|].
  rewrite last_member_cons.
  destruct (classify n) as [[[d0 g] sub]|e]; [destruct (_ && _)|]; apply IH.
Qed.

Lemma last_member_exists d k names :
  (exists n, In n names /\ classify n = Ok (d, fst k, snd k)) ->
  forall prev, last_member d k names prev <> None.
Proof.
  induction names as [|n names IH]; intros (n' & Hin & Hc') prev; [destruct Hin|].
  rewrite last_member_cons.
  destruct Hin as [<-|Hin].
  - rewrite Hc'. destruct k as [g sub]. simpl.
    rewrite eqb_reflx, (proj2 (key_eqb_eq _ _) eq_refl). apply last_member_stays.
  - apply IH. eauto.
Qed.

Lemma last_member_origin d k names : forall prev n,
  last_member d k names prev = Some n ->
  prev = Some n \/ (In n names /\ classify n = Ok (d, fst k, snd k)).
Proof.
  induction names as [|n0 names IH]; intros prev n H; [left; exact H|].
  rewrite last_member_cons in H.
  destruct (IH _ _ H) as [Hp|[Hin Hc]]; [|right; split; [right; exact Hin|exact Hc]].
  destruct (classify n0) as [[[d0 g] sub]|e] eqn:Hc0; [|left; exact Hp].
  destruct (Bool.eqb d0 d && key_eqb (g, sub) k) eqn:Hm; [|left; exact Hp].
  injection Hp as ->. right. split; [left; reflexivity|].
  apply andb_true_iff in Hm. destruct Hm as [Hd Hk].
  apply Bool.eqb_prop in Hd. apply key_eqb_eq in Hk. subst. exact Hc0.
Qed.

(** C9: two members that classify to the same direction, group and
    sub-index raise nothing: collecting succeeds whenever every member
    classifies, and each side of a bucket holds the last member of the
    name list classified to it, the later one overwriting the earlier. *)
Theorem collect_later_overrides names :
  (forall n, In n names -> exists c, classify n = Ok c) ->
  exists tf, collect_from names [] = Ok tf /\
    forall k b, assoc_get key_eqb k tf = Some b ->
      b_input b = last_member true k names None /\
      b_output b = last_member false k names None.
Proof.
  intros H. destruct (collect_from_ok names [] H) as [tf Htf].
  exists tf. split; [exact Htf|]. intros k b Hb.
  pose proof (collect_from_side names [] tf true k Htf) as Hi.
  pose proof (collect_from_side names [] tf false k Htf) as Ho.
  rewrite Hb in Hi, Ho. simpl in Hi, Ho. auto.
Qed.

Lemma collect_later_overrides_witness :
  last_member true (1%Z, []) [lit "a.i01"; lit "b.i01"; lit "a.o01"] None = Some (lit "b.i01") /\
  exists tf, collect_from [lit "a.i01"; lit "b.i01"; lit "a.o01"] [] = Ok tf /\
    forall k b, assoc_get key_eqb k tf = Some b ->
      b_input b = last_member true k [lit "a.i01"; lit "b.i01"; lit "a.o01"] None /\
      b_output b = last_member false k [lit "a.i01"; lit "b.i01"; lit "a.o01"] None.
Proof.
  split; [reflexivity|].
  apply collect_later_overrides.
  intros n Hn. simpl in Hn. destruct Hn as [<-|[<-|[<-|[]]]]; eexists; reflexivity.
Defined.

(** The test built from the bucket carries the later member's content. *)
Example later_member_used :
  match_tests 2 [] {| namelist := [lit "a.i01"; lit "b.i01"; lit "a.o01"];
                      member_data := fun n => if pystr_eqb n (lit "b.i01")
                                              then [Byte.x62] else [Byte.x61] |}
  = Ok ([0; 1]%Z,
        [(lit "1", {| tc_codename := lit "1"; tc_public := false;
                      tc_input := [Byte.x62]; tc_output := [Byte.x61] |})]).
Proof. reflexivity. Qed.

(* ------------------------------------------------------------------ *)
(** ** The extraction loop *)

Lemma length_replace_nth {A} i (x : A) l : List.length (replace_nth i x l) = List.length l.
Proof.
  revert i. induction l as [|y l IH]; intros [|i]; simpl; auto.
Qed.

Lemma nth_replace_nth {A} i (x : A) l j d :
  (i < List.length l)%nat ->
  nth j (replace_nth i x l) d = if Nat.eqb i j then x else nth j l d.
Proof.
  revert i j. induction l as [|y l IH]; intros [|i] [|j] Hi; simpl in *; try lia; auto.
  apply IH. lia.
Qed.

Lemma incr_at_ok counts g :
  (0 <= g < Z.of_nat (List.length counts))%Z ->
  incr_at counts g =
  Ok (replace_nth (Z.to_nat g) (nth (Z.to_nat g) counts 0 + 1)%Z counts).
Proof.
  intros Hg. unfold incr_at, py_index.
  replace ((0 <=? g)%Z && (g <? Z.of_nat (List.length counts))%Z) with true; [reflexivity|].
  symmetry. apply andb_true_iff. split; [apply Z.leb_le|apply Z.ltb_lt]; lia.
Qed.

Lemma incr_at_oob counts g :
  (Z.of_nat (List.length counts) <= g)%Z -> incr_at counts g = Err IndexError.
Proof.
  intros Hg. unfold incr_at, py_index.
  replace ((0 <=? g)%Z && (g <? Z.of_nat (List.length counts))%Z) with false.
  2:{ symmetry. apply andb_false_iff. right. apply Z.ltb_ge. lia. }
  replace ((- Z.of_nat (List.length counts) <=? g)%Z && (g <? 0)%Z) with false; [reflexivity|].
  symmetry. apply andb_false_iff. right. apply Z.ltb_ge. lia.
Qed.

Lemma incr_at_length counts g c' : incr_at counts g = Ok c' -> List.length c' = List.length counts.
Proof.
  unfold incr_at. destruct (py_index _ g); [|discriminate].
  intros H. injection H as <-. apply length_replace_nth.
Qed.

Lemma read_ascii_ok data : is_ascii data = true -> read_ascii data = Ok (normalize_newlines data).
Proof. unfold read_ascii. intros ->. reflexivity. Qed.

Lemma extract_loop_length w pub data tf ks : forall counts tcs c' t',
  extract_loop w pub data tf ks counts tcs = Ok (c', t') -> List.length c' = List.length counts.
Proof.
  induction ks as [|[g sub] ks IH]; intros counts tcs c' t' H; simpl in H.
  - injection H as <- _. reflexivity.
  - destruct (incr_at counts g) as [c1|] eqn:Hi; simpl in H; [|discriminate].
    destruct (assoc_get key_eqb (g, sub) tf) as [b|]; [|discriminate].
    destruct (b_input b) as [i|], (b_output b) as [o|]; try discriminate.
    destruct (read_ascii (data i)); simpl in H; [|discriminate].
    destruct (read_ascii (data o)); simpl in H; [|discriminate].
    rewrite (IH _ _ _ _ H). exact (incr_at_length _ _ _ Hi).
Qed.

(** When every key visited is a complete bucket of a group with a
    counter, the loop succeeds, counters only grow, and the counter of
    each visited group grows by at least one. *)
Lemma extract_loop_ok w pub data tf ks : forall counts tcs,
  (forall k, In k ks -> (0 <= fst k < Z.of_nat (List.length counts))%Z /\ complete_in tf data k) ->
  exists c' t', extract_loop w pub data tf ks counts tcs = Ok (c', t') /\
    List.length c' = List.length counts /\
    (forall j, (nth j counts 0 <= nth j c' 0)%Z) /\
    (forall k, In k ks -> (nth (Z.to_nat (fst k)) counts 0 + 1 <= nth (Z.to_nat (fst k)) c' 0)%Z).
Proof.
  induction ks as [|[g sub] ks IH]; intros counts tcs H.
  - exists counts, tcs. simpl. repeat split; auto; [intros; lia|intros k []].
  - destruct (H (g, sub) (or_introl eq_refl)) as [Hg (b & i & o & Hb & Hi & Ho & Ai & Ao)].
    simpl in Hg. simpl. rewrite (incr_at_ok _ _ Hg). simpl.
    rewrite Hb, Hi, Ho, (read_ascii_ok _ Ai), (read_ascii_ok _ Ao). simpl.
    set (c1 := replace_nth (Z.to_nat g) (nth (Z.to_nat g) counts 0 + 1)%Z counts).
    assert (Hlen : List.length c1 = List.length counts) by apply length_replace_nth.
    assert (Hn : forall j, nth j c1 0%Z =
                 if Nat.eqb (Z.to_nat g) j then (nth (Z.to_nat g) counts 0 + 1)%Z else nth j counts 0%Z).
    { intros j. apply nth_replace_nth. lia. }
    destruct (IH c1 (assoc_set pystr_eqb (codename w g sub)
                  {| tc_codename := codename w g sub; tc_public := existsb (Z.eqb g) pub;
                     tc_input := normalize_newlines (data i);
                     tc_output := normalize_newlines (data o) |} tcs))
      as (c' & t' & He & Hl & Hmono & Hhit).
    { intros k Hk. rewrite Hlen. apply H. right. exact Hk. }
    exists c', t'. split; [exact He|]. split; [lia|].
    assert (Hle : forall j, (nth j counts 0 <= nth j c1 0)%Z).
    { intros j. rewrite Hn. destruct (Nat.eqb_spec (Z.to_nat g) j) as [<-|]; lia. }
    split.
    + intros j. specialize (Hle j). specialize (Hmono j). lia.
    + intros k [<-|Hk].
      * simpl. specialize (Hmono (Z.to_nat g)). rewrite Hn, Nat.eqb_refl in Hmono. exact Hmono.
      * specialize (Hhit k Hk). specialize (Hle (Z.to_nat (fst k))). lia.
Qed.

(** When the keys visited reach a group without a counter, and every
    bucket visited before it is complete, the loop stops with
    [IndexError] at [tests_per_group[group] += 1]. *)
Lemma extract_loop_index_error w pub data tf ks : forall counts tcs,
  (forall k, In k ks -> 0 <= fst k)%Z ->
  (forall k, In k ks -> (fst k < Z.of_nat (List.length counts))%Z -> complete_in tf data k) ->
  (exists k, In k ks /\ (Z.of_nat (List.length counts) <= fst k)%Z) ->
  extract_loop w pub data tf ks counts tcs = Err IndexError.
Proof.
  induction ks as [|[g sub] ks IH]; intros counts tcs Hpos Hc [k [Hk Hbig]]; [destruct Hk|].
  simpl.
  destruct (Z_lt_le_dec g (Z.of_nat (List.length counts))) as [Hlt|Hge].
  - assert (Hg : (0 <= g < Z.of_nat (List.length counts))%Z)
      by (split; [exact (Hpos (g, sub) (or_introl eq_refl))|exact Hlt]).
    rewrite (incr_at_ok _ _ Hg). simpl.
    destruct (Hc (g, sub) (or_introl eq_refl) Hlt) as (b & i & o & Hb & Hi & Ho & Ai & Ao).
    rewrite Hb, Hi, Ho, (read_ascii_ok _ Ai), (read_ascii_ok _ Ao). simpl.
    apply IH.
    + intros k' Hk'. apply Hpos. right. exact Hk'.
    + intros k' Hk'. rewrite length_replace_nth. apply Hc. right. exact Hk'.
    + exists k. rewrite length_replace_nth. split; [|exact Hbig].
      destruct Hk as [<-|Hk]; [simpl in Hbig; lia|exact Hk].
  - rewrite (incr_at_oob _ _ Hge). reflexivity.
Qed.

Lemma check_groups_ok counts : forall i,
  (forall j, (j < List.length counts)%nat -> nth j counts 0%Z <> 0%Z) ->
  check_groups_from i counts = Ok tt.
Proof.
  induction counts as [|c counts IH]; intros i H; simpl; [reflexivity|].
  destruct (Z.eqb_spec c 0) as [Hc|Hc].
  - exfalso. apply (H 0%nat); [simpl; lia|exact Hc].
  - apply IH. intros j Hj. apply (H (S j)). simpl. lia.
Qed.

Lemma check_groups_first_empty counts : forall i j,
  (j < List.length counts)%nat -> nth j counts 0%Z = 0%Z ->
  (forall j', (j' < j)%nat -> nth j' counts 0%Z <> 0%Z) ->
  check_groups_from i counts = Err (LioLoaderException (NoTestcases (i + Z.of_nat j))).
Proof.
  induction counts as [|c counts IH]; intros i j Hj Hz Hbefore; simpl in *; [lia|].
  destruct j as [|j].
  - rewrite Hz. simpl. rewrite Z.add_0_r. reflexivity.
  - destruct (Z.eqb_spec c 0) as [Hc|Hc].
    + exfalso. apply (Hbefore 0%nat); [lia|exact Hc].
    + rewrite (IH (i + 1)%Z j); [|lia|exact Hz|].
      * do 3 f_equal. lia.
      * intros j' Hj'. apply (Hbefore (S j')). lia.
Qed.

Lemma insert_key_In x k l : In x (insert_key k l) <-> k = x \/ In x l.
Proof.
  induction l as [|k' l IH]; simpl; [tauto|].
  destruct (key_ltb k k'); simpl; [tauto|]. rewrite IH. tauto.
Qed.

Lemma sort_keys_In x l : In x (sort_keys l) <-> In x l.
Proof.
  induction l as [|k l IH]; simpl; [tauto|]. rewrite insert_key_In, IH. tauto.
Qed.

(* ------------------------------------------------------------------ *)
(** ** Buckets of a collected archive *)

Lemma digits_value_nonneg ds : forall acc, (0 <= acc)%Z -> forallb is_digit ds = true ->
  (0 <= fold_left (fun acc c => acc * 10 + digit_val c)%Z ds acc)%Z.
Proof.
  induction ds as [|c ds IH]; intros acc Hacc H; simpl; [exact Hacc|].
  simpl in H. apply andb_true_iff in H. destruct H as [Hc Hds]. apply IH; [|exact Hds].
  unfold is_digit in Hc. apply andb_true_iff in Hc. destruct Hc as [H1 _].
  apply Nat.leb_le in H1. unfold digit_val. lia.
Qed.

Lemma classify_nonneg n d g sub : classify n = Ok (d, g, sub) -> (0 <= g)%Z.
Proof.
  unfold classify. destruct (has_separator n); [discriminate|].
  destruct (search n) as [[[d' ds] sub']|] eqn:Hs; [|discriminate].
  destruct (search_some _ _ Hs) as (base & S & _ & HS).
  destruct (match_at_shape _ _ _ _ HS) as (tl & _ & (_ & Hne & Hds & _)).
  rewrite (py_int_digits ds Hne Hds). intros H. injection H as _ <- _.
  apply digits_value_nonneg; [lia|exact Hds].
Qed.

Lemma collect_keys_In names tf k :
  collect_from names [] = Ok tf ->
  In k (map fst tf) <-> exists n d, In n names /\ classify n = Ok (d, fst k, snd k).
Proof.
  intros Htf. rewrite <- (assoc_get_In key_eqb key_eqb_eq).
  rewrite (collect_from_keys names [] tf k Htf). simpl. split; [|auto].
  intros [H|H]; [congruence|exact H].
Qed.

Lemma bucket_complete names data tf k :
  collect_from names [] = Ok tf ->
  (exists n d, In n names /\ classify n = Ok (d, fst k, snd k)) ->
  (forall n d, In n names -> classify n = Ok (d, fst k, snd k) ->
     exists n', In n' names /\ classify n' = Ok (negb d, fst k, snd k)) ->
  (forall n d, In n names -> classify n = Ok (d, fst k, snd k) -> is_ascii (data n) = true) ->
  complete_in tf data k.
Proof.
  intros Htf [n [d [Hin Hc]]] Hpair Hasc.
  assert (Hside : forall d', exists x, opt_side d' (assoc_get key_eqb k tf) = Some x /\
                                       is_ascii (data x) = true).
  { intros d'. rewrite (collect_from_side names [] tf d' k Htf). simpl.
    assert (Hex : exists n', In n' names /\ classify n' = Ok (d', fst k, snd k)).
    { destruct (Bool.bool_dec d d') as [<-|Hne]; [eauto|].
      destruct (Hpair n d Hin Hc) as [n' [Hin' Hc']]. exists n'. split; [exact Hin'|].
      replace d' with (negb d) by (destruct d, d'; simpl; congruence). exact Hc'. }
    destruct (last_member d' k names None) as [x|] eqn:Hx.
    - exists x. split; [reflexivity|].
      destruct (last_member_origin _ _ _ _ _ Hx) as [Hn|[Hin' Hc']]; [discriminate|].
      exact (Hasc x d' Hin' Hc').
    - exfalso. exact (last_member_exists d' k names Hex None Hx). }
  destruct (assoc_get key_eqb k tf) as [b|] eqn:Hb.
  - destruct (Hside true) as [i [Hi Ai]]. destruct (Hside false) as [o [Ho Ao]].
    simpl in Hi, Ho. exists b, i, o. auto.
  - destruct (Hside true) as [i [Hi _]]. discriminate.
Qed.

Lemma py_max_ok (xs : list Z) : xs <> [] -> exists m, py_max xs = Ok m.
Proof. destruct xs; [congruence|eexists; reflexivity]. Qed.

(** A bucket is complete when the member it finally holds on each side
    exists and is ASCII, whatever members were overwritten before. *)
Lemma bucket_complete_last names data tf k :
  collect_from names [] = Ok tf ->
  (forall d, exists x, last_member d k names None = Some x /\ is_ascii (data x) = true) ->
  complete_in tf data k.
Proof.
  intros Htf Hlast.
  assert (Hside : forall d, exists x, opt_side d (assoc_get key_eqb k tf) = Some x /\
                                      is_ascii (data x) = true).
  { intros d. rewrite (collect_from_side names [] tf d k Htf). exact (Hlast d). }
  destruct (assoc_get key_eqb k tf) as [b|] eqn:Hb.
  - destruct (Hside true) as [i [Hi Ai]]. destruct (Hside false) as [o [Ho Ao]].
    simpl in Hi, Ho. exists b, i, o. auto.
  - destruct (Hside true) as [i [Hi _]]. discriminate.
Qed.

(** C2 (as the code has it): the point file [0-1 30] / [2-2 70] gives
    [30] points to each of groups [0] and [1] and [70] to group [2], a
    total of [130], so the import fails on the point-sum check whatever
    the archive.  With points that sum to [100], like [0-1 15] / [2-2 70],
    and an archive of complete ASCII tests exactly for groups [0], [1] and
    [2], the import succeeds, and the group labels of the scoring
    parameters are zero-padded to three digits. *)
Theorem get_task_score_parameters pub zip :
  get_task points_30_70 pub zip = Err (LioLoaderException PointSum) /\
  ((forall n, In n (namelist zip) -> exists d g sub, classify n = Ok (d, g, sub) /\ (g <= 2)%Z) ->
   (forall g, (0 <= g <= 2)%Z -> exists n d sub, In n (namelist zip) /\ classify n = Ok (d, g, sub)) ->
   (forall n d g sub, In n (namelist zip) -> classify n = Ok (d, g, sub) ->
      exists n', In n' (namelist zip) /\ classify n' = Ok (negb d, g, sub)) ->
   (forall n, In n (namelist zip) -> is_ascii (member_data zip n) = true) ->
   exists r, get_task points_15_70 pub zip = Ok r /\
     score_type_parameters r = [(15, lit "000"); (15, lit "001"); (70, lit "002")]%Z).
Proof.
  split; [reflexivity|]. intros Hcls Hcover Hpair Hasc.
  set (names := namelist zip) in *.
  destruct (collect_from_ok names []) as [tf Htf].
  { intros n Hn. destruct (Hcls n Hn) as (d & g & sub & Hc & _). eauto. }
  assert (Hkey : forall g, (0 <= g <= 2)%Z -> exists sub, In (g, sub) (sort_keys (map fst tf))).
  { intros g Hg. destruct (Hcover g Hg) as (n & d & sub & Hin & Hc). exists sub.
    apply sort_keys_In. apply (collect_keys_In names tf (g, sub) Htf). eauto. }
  destruct (py_max_ok (groups_of tf)) as [mx Hmx].
  { destruct (Hkey 0%Z ltac:(lia)) as [sub Hin]. rewrite sort_keys_In in Hin.
    destruct tf; [destruct Hin|discriminate]. }
  set (pts := [(0, 15); (1, 15); (2, 70)]%Z).
  destruct (extract_loop_ok (List.length (str_Z mx)) pub (member_data zip) tf
              (sort_keys (map fst tf)) (repeat 0%Z (List.length pts)) [])
    as (c' & t' & He & Hl & _ & Hhit).
  { intros k Hk. rewrite sort_keys_In in Hk.
    pose proof Hk as Hk'. apply (collect_keys_In names tf k Htf) in Hk'.
    destruct Hk' as (n & d & Hin & Hc). split.
    - rewrite repeat_length. destruct (Hcls n Hin) as (d' & g' & sub' & Hc' & Hle).
      rewrite Hc in Hc'. injection Hc' as _ <- _.
      pose proof (classify_nonneg _ _ _ _ Hc). simpl. lia.
    - apply (bucket_complete names); eauto. }
  rewrite repeat_length in Hl.
  assert (Hcheck : check_groups_from 0 c' = Ok tt).
  { apply check_groups_ok. intros j Hj. rewrite Hl in Hj. simpl in Hj.
    destruct (Hkey (Z.of_nat j) ltac:(lia)) as [sub Hin].
    specialize (Hhit _ Hin). cbn [fst] in Hhit. rewrite Nat2Z.id, nth_repeat in Hhit. lia. }
  exists {| score_type_parameters := [(15, lit "000"); (15, lit "001"); (70, lit "002")]%Z;
            testcases := t' |}.
  split; [|reflexivity].
  unfold get_task.
  replace (parse_point_file points_15_70) with (Ok pts) by reflexivity. cbn [bind].
  replace (build_score_params pts (seq 0 (List.length pts)))
    with (Ok [(15, lit "000"); (15, lit "001"); (70, lit "002")]%Z) by reflexivity.
  cbn [bind]. unfold match_tests. fold names. rewrite Htf. cbn [bind]. rewrite Hmx. cbn [bind].
  rewrite He. cbn [bind fst snd]. rewrite Hcheck. reflexivity.
Qed.

Lemma get_task_score_parameters_witness :
  get_task points_30_70 [0; 1]%Z zip_012 = Err (LioLoaderException PointSum) /\
  exists r, get_task points_15_70 [0; 1]%Z zip_012 = Ok r /\
    score_type_parameters r = [(15, lit "000"); (15, lit "001"); (70, lit "002")]%Z.
Proof.
  destruct (get_task_score_parameters [0; 1]%Z zip_012) as [Hsum Hok].
  split; [exact Hsum|]. apply Hok.
  - intros n Hn. simpl in Hn.
    destruct Hn as [<-|[<-|[<-|[<-|[<-|[<-|[]]]]]]]; do 3 eexists; split.
    all: try reflexivity.
    all: vm_compute; discriminate.
  - intros g Hg.
    assert (Hg3 : (g = 0 \/ g = 1 \/ g = 2)%Z) by lia.
    destruct Hg3 as [Hg0|[Hg0|Hg0]]; subst g.
    + exists (lit "t.i0"), true, []. split; [simpl; tauto|reflexivity].
    + exists (lit "t.i1"), true, []. split; [simpl; tauto|reflexivity].
    + exists (lit "t.i2"), true, []. split; [simpl; tauto|reflexivity].
  - intros n d g sub Hn Hc. simpl in Hn.
    destruct Hn as [<-|[<-|[<-|[<-|[<-|[<-|[]]]]]]]; injection Hc as <- <- <-.
    + exists (lit "t.i2"). split; [simpl; tauto|reflexivity].
    + exists (lit "t.o0"). split; [simpl; tauto|reflexivity].
    + exists (lit "t.i0"). split; [simpl; tauto|reflexivity].
    + exists (lit "t.o1"). split; [simpl; tauto|reflexivity].
    + exists (lit "t.i1"). split; [simpl; tauto|reflexivity].
    + exists (lit "t.o2"). split; [simpl; tauto|reflexivity].
  - intros n _. reflexivity.
Defined.

(* ------------------------------------------------------------------ *)
(** ** The stages of [get_task] *)

Lemma build_score_params_ok d is :
  (forall i, In i is -> In (Z.of_nat i) (map fst d)) ->
  exists stp, build_score_params d is = Ok stp.
Proof.
  induction is as [|i is IH]; intros H; simpl; [eauto|].
  destruct (assoc_get Z.eqb (Z.of_nat i) d) as [p|] eqn:Hp.
  - simpl. destruct IH as [stp ->]; [intros j Hj; apply H; right; exact Hj|].
    simpl. eauto.
  - exfalso. apply (proj2 (assoc_get_In Z.eqb Z.eqb_eq (Z.of_nat i) d)); [|exact Hp].
    apply H. left. reflexivity.
Qed.

Lemma parse_point_file_covers pl pts i :
  parse_point_file pl = Ok pts -> (i < List.length pts)%nat -> In (Z.of_nat i) (map fst pts).
Proof.
  unfold parse_point_file.
  destruct (process_lines (map strip pl) []) as [d|e]; simpl; [|discriminate].
  destruct (forallb _ _) eqn:Hall; [|discriminate].
  destruct (Z.eqb (sum_values d) 100); [|discriminate].
  intros H Hi. injection H as <-. apply mem_group_In.
  rewrite forallb_forall in Hall. apply Hall. apply in_seq. lia.
Qed.

Lemma parse_score_params_ok pl pts :
  parse_point_file pl = Ok pts ->
  exists stp, build_score_params pts (seq 0 (List.length pts)) = Ok stp.
Proof.
  intros Hp. apply build_score_params_ok. intros i Hi.
  apply in_seq in Hi. apply (parse_point_file_covers pl); [exact Hp|lia].
Qed.

Lemma match_tests_length n pub zip counts tcs :
  match_tests n pub zip = Ok (counts, tcs) -> List.length counts = n.
Proof.
  unfold match_tests.
  destruct (collect_from (namelist zip) []) as [tf|]; simpl; [|discriminate].
  destruct (py_max (groups_of tf)) as [mx|]; simpl; [|discriminate].
  intros H. rewrite (extract_loop_length _ _ _ _ _ _ _ _ _ H). apply repeat_length.
Qed.

(** C6 (as the code has it): after the matching stage has counted the
    tests of each of the [N] groups of the point map, a group without
    tests makes the import fail with the empty-group error naming it (the
    first such group when there are several), and when every group has a
    test this check passes and the import succeeds. *)
Theorem get_task_empty_group pl pub zip pts counts tcs :
  parse_point_file pl = Ok pts ->
  match_tests (List.length pts) pub zip = Ok (counts, tcs) ->
  (forall j, (j < List.length pts)%nat -> nth j counts 0%Z = 0%Z ->
     (forall j', (j' < j)%nat -> nth j' counts 0%Z <> 0%Z) ->
     get_task pl pub zip = Err (LioLoaderException (NoTestcases (Z.of_nat j)))) /\
  ((forall j, (j < List.length pts)%nat -> nth j counts 0%Z <> 0%Z) ->
     exists r, get_task pl pub zip = Ok r).
Proof.
  intros Hp Hm.
  destruct (parse_score_params_ok pl pts Hp) as [stp Hs].
  pose proof (match_tests_length _ _ _ _ _ Hm) as Hl.
  unfold get_task. rewrite Hp. cbn [bind]. rewrite Hs. cbn [bind]. rewrite Hm. cbn [bind fst snd].
  split.
  - intros j Hj Hz Hbefore.
    rewrite (check_groups_first_empty counts 0 j); [reflexivity|lia|exact Hz|exact Hbefore].
  - intros Hall. rewrite check_groups_ok; [eexists; reflexivity|].
    intros j Hj. apply Hall. lia.
Qed.

Lemma get_task_empty_group_witness :
  get_task points_15_70 [0; 1]%Z zip_01 = Err (LioLoaderException (NoTestcases 2)).
Proof.
  destruct (get_task_empty_group points_15_70 [0; 1]%Z zip_01 [(0, 15); (1, 15); (2, 70)]%Z
              [1; 1; 0]%Z
              [(lit "0", {| tc_codename := lit "0"; tc_public := true;
                            tc_input := [Byte.x31; Byte.x0a]; tc_output := [Byte.x31; Byte.x0a] |});
               (lit "1", {| tc_codename := lit "1"; tc_public := true;
                            tc_input := [Byte.x31; Byte.x0a]; tc_output := [Byte.x31; Byte.x0a] |})])
    as [H _]; [reflexivity|reflexivity|].
  apply (H 2%nat); [simpl; lia|reflexivity|].
  intros j' Hj'. destruct j' as [|[|j']]; [discriminate|discriminate|lia].
Defined.

(** C6 as stated fails on its example: with the point file [0-1 30] /
    [2-2 70] and no tests for group [2], the import stops at the
    point-sum check (130 points) before the per-group test check. *)
Lemma empty_group_example_point_sum :
  get_task points_30_70 [0; 1]%Z zip_01 = Err (LioLoaderException PointSum).
Proof. reflexivity. Qed.

(** C8 (as the code has it): when the point file parses into [N] groups,
    every member is a flat name the matcher accepts, some member has a
    group index [>= N], and every bucket of a group below [N] finally
    holds an input and an output member with ASCII contents (members
    overwritten in their bucket are never read), the import fails with
    [IndexError] from [tests_per_group[group] += 1], not with a
    [LioLoaderException]. *)
Theorem get_task_extra_group_index_error pl pub zip pts :
  parse_point_file pl = Ok pts ->
  (forall n, In n (namelist zip) -> exists c, classify n = Ok c) ->
  (exists n d g sub, In n (namelist zip) /\ classify n = Ok (d, g, sub) /\
                     (Z.of_nat (List.length pts) <= g)%Z) ->
  (forall g sub, (g < Z.of_nat (List.length pts))%Z ->
     (exists n d, In n (namelist zip) /\ classify n = Ok (d, g, sub)) ->
     forall d, exists x, last_member d (g, sub) (namelist zip) None = Some x /\
                         is_ascii (member_data zip x) = true) ->
  get_task pl pub zip = Err IndexError.
Proof.
  intros Hp Hcls (n0 & d0 & g0 & sub0 & Hin0 & Hc0 & Hbig) Hsmall.
  set (names := namelist zip) in *.
  destruct (parse_score_params_ok pl pts Hp) as [stp Hs].
  destruct (collect_from_ok names [] Hcls) as [tf Htf].
  assert (Hk0 : In (g0, sub0) (map fst tf)).
  { apply (collect_keys_In names tf (g0, sub0) Htf). eauto. }
  destruct (py_max_ok (groups_of tf)) as [mx Hmx]; [destruct tf; [destruct Hk0|discriminate]|].
  unfold get_task. rewrite Hp. cbn [bind]. rewrite Hs. cbn [bind].
  unfold match_tests. fold names. rewrite Htf. cbn [bind]. rewrite Hmx. cbn [bind].
  rewrite extract_loop_index_error; [reflexivity| | |].
  - intros k Hk. rewrite sort_keys_In in Hk.
    apply (collect_keys_In names tf k Htf) in Hk. destruct Hk as (n & d & _ & Hc).
    exact (classify_nonneg _ _ _ _ Hc).
  - intros [g sub] Hk Hlt. rewrite sort_keys_In in Hk. rewrite repeat_length in Hlt.
    apply (bucket_complete_last names); [exact Htf|].
    apply (Hsmall g sub Hlt). exact (proj1 (collect_keys_In names tf (g, sub) Htf) Hk).
  - exists (g0, sub0). rewrite sort_keys_In, repeat_length. split; [exact Hk0|exact Hbig].
Qed.

(** Group [0] has two inputs, the first of which is not ASCII; it is
    overwritten by the second, so the import reaches group [1]. *)
Lemma get_task_extra_group_index_error_witness :
  get_task [lit "0-0 100"] [] zip_overwritten_non_ascii = Err IndexError.
Proof.
  apply (get_task_extra_group_index_error _ _ _ [(0, 100)]%Z); [reflexivity| | |].
  - intros n Hn. simpl in Hn. destruct Hn as [<-|[<-|[<-|[<-|[<-|[]]]]]]; eexists; reflexivity.
  - exists (lit "a.i1"), true, 1%Z, []. split; [simpl; tauto|split; [reflexivity|simpl; lia]].
  - intros g sub Hlt (n & d & Hn & Hc). simpl in Hn.
    destruct Hn as [<-|[<-|[<-|[<-|[<-|[]]]]]]; injection Hc as <- <- <-; simpl in Hlt; try lia;
      intros [|]; eexists; split; reflexivity.
Defined.

(** C8 as stated fails: other errors can come first.  Here group [1] is
    beyond the point map, but the incomplete bucket of group [0] is
    visited before it and raises the [LioLoaderException]. *)
Lemma extra_group_after_incomplete_test :
  get_task [lit "0-0 100"] [] (simple_zip ["a.i0"; "a.i1"; "a.o1"]%string)
  = Err (LioLoaderException (IncompleteTest 0 [])).
Proof. reflexivity. Qed.

(* ------------------------------------------------------------------ *)
(** ** Codenames *)

Lemma extract_loop_codenames w pub data tf ks : forall counts tcs c' t',
  extract_loop w pub data tf ks counts tcs = Ok (c', t') ->
  (forall k, In k ks -> exists tc, assoc_get pystr_eqb (codename w (fst k) (snd k)) t' = Some tc) /\
  (forall c tc, assoc_get pystr_eqb c t' = Some tc ->
     assoc_get pystr_eqb c tcs = Some tc \/
     (tc_codename tc = c /\ exists k, In k ks /\ c = codename w (fst k) (snd k))) /\
  (forall c, assoc_get pystr_eqb c tcs <> None -> assoc_get pystr_eqb c t' <> None).
Proof.
  induction ks as [|[g sub] ks IH]; intros counts tcs c' t' H; simpl in H.
  - injection H as _ <-. split; [intros k []|split; [auto|auto]].
  - destruct (incr_at counts g) as [c1|]; simpl in H; [|discriminate].
    destruct (assoc_get key_eqb (g, sub) tf) as [b|]; [|discriminate].
    destruct (b_input b) as [i|], (b_output b) as [o|]; try discriminate.
    destruct (read_ascii (data i)) as [ic|]; simpl in H; [|discriminate].
    destruct (read_ascii (data o)) as [oc|]; simpl in H; [|discriminate].
    set (cn := codename w g sub) in H.
    set (tc0 := {| tc_codename := cn; tc_public := existsb (Z.eqb g) pub;
                   tc_input := ic; tc_output := oc |}) in H.
    destruct (IH _ _ _ _ H) as (H1 & H2 & H3).
    assert (Hset : forall c, assoc_get pystr_eqb c (assoc_set pystr_eqb cn tc0 tcs) =
                            if pystr_eqb cn c then Some tc0 else assoc_get pystr_eqb c tcs)
      by (intros c; apply (assoc_get_set pystr_eqb pystr_eqb_eq)).
    split; [|split].
    + intros k [<-|Hk]; [|exact (H1 k Hk)].
      simpl. fold cn. destruct (assoc_get pystr_eqb cn t') as [tc|] eqn:Ht; [eauto|].
      exfalso. apply (H3 cn); [|exact Ht].
      rewrite Hset, (proj2 (pystr_eqb_eq cn cn) eq_refl). discriminate.
    + intros c tc Hc. destruct (H2 c tc Hc) as [Hold|(Hn & k & Hk & Hck)].
      * rewrite Hset in Hold. destruct (pystr_eqb cn c) eqn:Heq.
        -- apply pystr_eqb_eq in Heq. injection Hold as <-. right.
           split; [exact Heq|]. exists (g, sub). split; [left; reflexivity|]. symmetry. exact Heq.
        -- left. exact Hold.
      * right. split; [exact Hn|]. exists k. split; [right; exact Hk|exact Hck].
    + intros c Hc. apply H3. rewrite Hset. destruct (pystr_eqb cn c); [discriminate|exact Hc].
Qed.

(** C5: in a successful import, every bucket [(g, sub)] of the archive is
    stored under the codename [zpad w g ++ sub], [w] being the number of
    decimal digits of the largest group index present ([max] over the
    groups of [test_files]), every stored test carries the codename it is
    stored under, and every stored codename is of that form.  For group
    [3] and sub-index [b] this is [03b] when the largest group is [12] and
    [003b] when it is [150]. *)
Theorem get_task_codenames pl pub zip r :
  get_task pl pub zip = Ok r ->
  (exists tf mx, collect_from (namelist zip) [] = Ok tf /\ py_max (groups_of tf) = Ok mx /\
    (forall g sub, In (g, sub) (map fst tf) ->
       exists tc, assoc_get pystr_eqb (codename (List.length (str_Z mx)) g sub) (testcases r) = Some tc /\
                  tc_codename tc = codename (List.length (str_Z mx)) g sub) /\
    (forall c tc, assoc_get pystr_eqb c (testcases r) = Some tc ->
       tc_codename tc = c /\
       exists g sub, In (g, sub) (map fst tf) /\ c = codename (List.length (str_Z mx)) g sub)) /\
  codename (List.length (str_Z 12)) 3 (lit "b") = lit "03b" /\
  codename (List.length (str_Z 150)) 3 (lit "b") = lit "003b".
Proof.
  intros H. split; [|split; reflexivity].
  unfold get_task in H.
  destruct (parse_point_file pl) as [pts|]; cbn [bind] in H; [|discriminate].
  destruct (build_score_params pts _) as [stp|]; cbn [bind] in H; [|discriminate].
  destruct (match_tests (List.length pts) pub zip) as [[counts tcs]|] eqn:Hm;
    cbn [bind] in H; [|discriminate].
  destruct (check_groups_from 0 (fst (counts, tcs))); cbn [bind] in H; [|discriminate].
  injection H as <-. simpl testcases.
  unfold match_tests in Hm.
  destruct (collect_from (namelist zip) []) as [tf|] eqn:Htf; cbn [bind] in Hm; [|discriminate].
  destruct (py_max (groups_of tf)) as [mx|] eqn:Hmx; cbn [bind] in Hm; [|discriminate].
  destruct (extract_loop_codenames _ _ _ _ _ _ _ _ _ Hm) as (H1 & H2 & _).
  exists tf, mx. split; [reflexivity|split; [exact Hmx|split]].
  - intros g sub Hk. destruct (H1 (g, sub)) as [tc Htc]; [apply sort_keys_In; exact Hk|].
    exists tc. split; [exact Htc|].
    destruct (H2 _ _ Htc) as [Hnil|[Hn _]]; [discriminate|exact Hn].
  - intros c tc Hc. destruct (H2 c tc Hc) as [Hnil|(Hn & [g sub] & Hk & Hck)]; [discriminate|].
    split; [exact Hn|]. exists g, sub. split; [|exact Hck].
    apply sort_keys_In. exact Hk.
Qed.

(** Groups [0] to [10]: the largest group index [10] has two digits, so
    the bucket [(3, b)] is stored under [03b]. *)
Lemma get_task_codenames_witness :
  exists r, get_task points_0_10 [] zip_0_10 = Ok r /\
  exists tc, assoc_get pystr_eqb (lit "03b") (testcases r) = Some tc /\ tc_codename tc = lit "03b".
Proof.
  destruct (get_task points_0_10 [] zip_0_10) as [r|e] eqn:Hr; [|vm_compute in Hr; discriminate].
  exists r. split; [reflexivity|].
  destruct (get_task_codenames points_0_10 [] zip_0_10 r Hr) as [(tf & mx & Htf & Hmx & Hall & _) _].
  vm_compute in Htf. injection Htf as <-.
  vm_compute in Hmx. injection Hmx as <-.
  destruct (Hall 3%Z (lit "b")) as (tc & Htc & Hcn).
  { vm_compute. repeat (first [left; reflexivity | right]). }
  exists tc. split; [exact Htc|exact Hcn].
Defined.

(** C2 as stated fails: with complete tests for groups [0], [1] and [2],
    the point file [0-1 30] / [2-2 70] is rejected by the point-sum
    check, and the labels the code builds are [000], [001], [002]. *)
Lemma score_parameters_30_70_rejected :
  get_task points_30_70 [0; 1]%Z zip_012 = Err (LioLoaderException PointSum) /\
  sum_values [(0, 30); (1, 30); (2, 70)]%Z = 130%Z /\
  map (fun i => zpad 3 (Z.of_nat i)) [0; 1; 2]%nat = [lit "000"; lit "001"; lit "002"].
Proof. split; [|split]; reflexivity. Qed.
